(** * Offline-first task tracker: the synchronization engine

    A shallow embedding of [src/services/syncService.ts] (class
    [SyncService]), [src/services/taskService.ts] (class [TaskService]),
    [src/db/database.ts] (class [Database]) and the [POST /sync] route of
    [createSyncRouter].

    The SQLite tables are lists of rows and the statements that [Database]
    runs are functions on those lists.  [SyncService] sends its own
    statements through [this.db.query], a method that class [Database] does
    not have ([run], [get], [all] and the task and queue methods are all it
    defines): each such call throws a [TypeError], and is embedded as that.
    The wall clock ([Date.now()], [new Date()]) and the HTTP client
    ([axios.post], [axios.get]) are oracles, taken as section variables.
    Asynchronous methods are run to completion one after the other, as the
    [await]s of the source do, in a state monad whose outcomes are
    "returned", "threw" and "does not terminate". *)

From Stdlib Require Import ZArith List String Bool Lia.
From Stdlib Require Import DecimalString.
Import ListNotations.

Open Scope string_scope.
Open Scope list_scope.
Open Scope Z_scope.

(** ** Data model *)

(** [Task.sync_status]. *)
Inductive SyncStatus := pending | synced | error_status.

(** The [operation] of a queue item and of a batch request entry. *)
Inductive Operation := op_create | op_update | op_delete.

(** [Task] of [../types].  Dates are time values in milliseconds;
    [updated_at] is the number handed to [new Date(...)], which need not be
    one that [Date] accepts. *)
Record Task := mkTask {
  id : string;
  title : string;
  description : string;
  completed : bool;
  created_at : Z;
  updated_at : Z;
  is_deleted : bool;
  sync_status : SyncStatus;
  server_id : option string;
  last_synced_at : option Z
}.

(** [Partial<Task>]: [None] is an absent key.  The two optional columns can also
    be present and null, hence the nested options. *)
Record PartialTask := mkPartial {
  p_id : option string;
  p_title : option string;
  p_description : option string;
  p_completed : option bool;
  p_created_at : option Z;
  p_updated_at : option Z;
  p_is_deleted : option bool;
  p_sync_status : option SyncStatus;
  p_server_id : option (option string);
  p_last_synced_at : option (option Z)
}.

Definition no_updates : PartialTask :=
  mkPartial None None None None None None None None None None.

(** A whole [Task] passed where a [Partial<Task>] is expected: every key is
    present. *)
Definition as_partial (t : Task) : PartialTask :=
  mkPartial (Some (id t)) (Some (title t)) (Some (description t))
            (Some (completed t)) (Some (created_at t)) (Some (updated_at t))
            (Some (is_deleted t)) (Some (sync_status t)) (Some (server_id t))
            (Some (last_synced_at t)).

(** [SyncQueueItem] of [../types], and a row of [sync_queue].
    [Database.addToSyncQueue] writes the text key [queue_id], [task_id], the
    action and [updated_at]; [SyncService] reads [id], [operation], [data],
    [retry_count], [error] and [permanent_fail] of the items it is given.  The
    record carries the fields of both; the [action] of
    [Database.addToSyncQueue] is the [operation] field, and [data] is kept
    parsed. *)
Record SyncQueueItem := mkItem {
  q_id : Z;
  queue_id : option string;
  task_id : string;
  operation : Operation;
  data : option PartialTask;
  q_updated_at : option Z;
  retry_count : Z;
  error : option string;
  permanent_fail : bool
}.

(** [SyncResult] and [BatchSyncResponse] (the counters of a batch). *)
Record SyncResult := mkResult { success : Z; failed : Z; skipped : Z }.

(** One entry of [BatchSyncRequest.operations]. *)
Record SyncOperation := mkOp {
  op_taskId : string;
  op_operation : Operation;
  op_data : option PartialTask
}.

Record BatchSyncRequest := mkRequest { operations : list SyncOperation }.

(** One entry of [response.data.results]. *)
Record ItemResult := mkItemResult {
  r_taskId : string;
  r_status : string;
  r_data : option PartialTask;
  r_serverData : option Task;
  r_message : option string
}.

(** What [await axios.post(...)] does: the promise is rejected, or it resolves
    with a body whose [results] is a list ([None]: not iterable). *)
Inductive PostOutcome :=
| PostRejected
| PostResolved (results : option (list ItemResult)).

(** The local state, with the log of the clock reads and of the requests
    posted so far. *)
Record World := mkWorld {
  tasks : list Task;
  sync_queue : list SyncQueueItem;
  reads : nat;
  posts : list (string * BatchSyncRequest)
}.

(** ** Effects *)

Inductive Outcome (A : Type) :=
| Returned (a : A) (w : World)
| Thrown (e : string) (w : World)
| Diverged.
Arguments Returned {A} a w.
Arguments Thrown {A} e w.
Arguments Diverged {A}.

Definition M (A : Type) := World -> Outcome A.

Definition ret {A} (a : A) : M A := fun w => Returned a w.
Definition throw {A} (e : string) : M A := fun w => Thrown e w.
Definition bind {A B} (m : M A) (k : A -> M B) : M B :=
  fun w => match m w with
           | Returned a w' => k a w'
           | Thrown e w' => Thrown e w'
           | Diverged => Diverged
           end.
Definition try_catch {A} (m : M A) (h : string -> M A) : M A :=
  fun w => match m w with
           | Thrown e w' => h e w'
           | o => o
           end.
Definition modify (f : World -> World) : M unit := fun w => Returned tt (f w).
Definition gets {A} (f : World -> A) : M A := fun w => Returned (f w) w.

Notation "x <- m ;; k" := (bind m (fun x => k))
  (at level 61, m at next level, right associativity).
Notation "m ;;; k" := (bind m (fun _ => k))
  (at level 61, right associativity).

(** The world an outcome leaves behind, when there is one. *)
Definition world_of {A} (o : Outcome A) : option World :=
  match o with
  | Returned _ w | Thrown _ w => Some w
  | Diverged => None
  end.

Definition set_tasks (f : list Task -> list Task) (w : World) : World :=
  mkWorld (f (tasks w)) (sync_queue w) (reads w) (posts w).
Definition set_queue (f : list SyncQueueItem -> list SyncQueueItem) (w : World) : World :=
  mkWorld (tasks w) (f (sync_queue w)) (reads w) (posts w).

Definition string_of_Z (z : Z) : string := NilZero.string_of_int (Z.to_int z).

(** [Array.prototype.slice(start, end)]: negative indices count from the end,
    both are clamped to the array. *)
Definition slice {A} (l : list A) (s e : Z) : list A :=
  let len := Z.of_nat (List.length l) in
  let k := if s <? 0 then Z.max (len + s) 0 else Z.min s len in
  let f := if e <? 0 then Z.max (len + e) 0 else Z.min e len in
  firstn (Z.to_nat (f - k)) (skipn (Z.to_nat k) l).

(** The integer key SQLite gives a new row: one more than the largest. *)
Definition fresh_id (q : list SyncQueueItem) : Z :=
  match q with
  | [] => 1
  | x :: q' => 1 + fold_left Z.max (map q_id q') (q_id x)
  end.

Definition or_else {A} (o : option A) (d : A) : A :=
  match o with Some a => a | None => d end.

(** The largest time value a [Date] holds, in milliseconds either side of the
    epoch. *)
Definition MAX_TIME : Z := 8640000000000000.

(** [new Date(x)] for a number [x]: its time value, or [None] for an Invalid
    Date (time value NaN) when [x] is out of range. *)
Definition new_Date (x : Z) : option Z :=
  if Z.abs x <=? MAX_TIME then Some x else None.

(** [a > b] on two [Date]s: the comparison of their time values, false as
    soon as one of them is NaN. *)
Definition date_gt (a b : option Z) : bool :=
  match a, b with
  | Some x, Some y => y <? x
  | _, _ => false
  end.

(** [resolveConflict]: [new Date(localTask.updated_at) > new Date(serverTask.updated_at)
    ? localTask : serverTask]. *)
Definition resolveConflict (localTask serverTask : Task) : Task :=
  if date_gt (new_Date (updated_at localTask)) (new_Date (updated_at serverTask))
  then localTask else serverTask.

Definition MAX_RETRY : Z := 3.

Section Engine.

(** [parseInt(process.env.SYNC_BATCH_SIZE || "10")], an integer. *)
Variable SYNC_BATCH_SIZE : Z.
Variable apiUrl : string.
(** The [n]-th reading of the clock. *)
Variable clock : nat -> Z.
(** [axios.post url body], given how many requests were posted before. *)
Variable axios_post : nat -> string -> BatchSyncRequest -> PostOutcome.
(** [axios.get url {timeout}]: [true] when the promise resolves, [false]
    when it is rejected (error status, network error, timeout). *)
Variable axios_get : string -> Z -> bool.

(** [Date.now()] and [new Date()]. *)
Definition now : M Z :=
  fun w => Returned (clock (reads w))
                    (mkWorld (tasks w) (sync_queue w) (S (reads w)) (posts w)).

(** *** [Database] *)

Definition db_getTask (i : string) : M (option Task) :=
  gets (fun w => find (fun t => String.eqb (id t) i) (tasks w)).

Definition db_insertTask (task : Task) : M unit :=
  existing <- db_getTask (id task) ;;
  match existing with
  | Some _ => throw "SQLITE_CONSTRAINT: UNIQUE constraint failed: tasks.id"
  | None => modify (set_tasks (fun ts => ts ++ [task]))
  end.

(** [UPDATE tasks SET title=?, ..., last_synced_at=? WHERE id = ?]:
    [created_at] is not among the columns set. *)
Definition db_updateTask (task : Task) : M unit :=
  modify (set_tasks (map (fun row =>
    if String.eqb (id row) (id task)
    then mkTask (id row) (title task) (description task) (completed task)
                (created_at row) (updated_at task) (is_deleted task)
                (sync_status task) (server_id task) (last_synced_at task)
    else row))).

(** [Database.addToSyncQueue]: [queue_id] is the primary key, so the INSERT
    is rejected when a row already has it.  [retry_count] takes its
    DEFAULT 0; [error] and [permanent_fail] are left unset. *)
Definition db_addToSyncQueue (i : string) (action : Operation) (upd : Z) : M unit :=
  n <- now ;;
  let queueId := (i ++ "-" ++ string_of_Z n)%string in
  q <- gets sync_queue ;;
  if existsb (fun row => match queue_id row with
                         | Some k => String.eqb k queueId
                         | None => false
                         end) q
  then throw "SQLITE_CONSTRAINT: UNIQUE constraint failed: sync_queue.queue_id"
  else modify (set_queue (fun q =>
         q ++ [mkItem (fresh_id q) (Some queueId) i action None (Some upd) 0 None false])).

(** *** [TaskService] *)

(** [createTask]; [fresh] is what [uuidv4()] returns.  Without a title the
    INSERT is rejected: the column is NOT NULL. *)
Definition createTask (fresh : string) (taskData : PartialTask) : M Task :=
  timestamp <- now ;;
  c <- now ;;
  u <- now ;;
  match p_title taskData with
  | None => throw "SQLITE_CONSTRAINT: NOT NULL constraint failed: tasks.title"
  | Some t =>
      let task := mkTask fresh t (or_else (p_description taskData) "")
                         false c u false pending None None in
      db_insertTask task ;;;
      db_addToSyncQueue fresh op_create timestamp ;;;
      ret task
  end.

(** [{ ...existing, ...updates, updated_at: new Date(), sync_status: "pending" }] *)
Definition merge_updates (existing : Task) (updates : PartialTask) (d : Z) : Task :=
  mkTask (or_else (p_id updates) (id existing))
         (or_else (p_title updates) (title existing))
         (or_else (p_description updates) (description existing))
         (or_else (p_completed updates) (completed existing))
         (or_else (p_created_at updates) (created_at existing))
         d
         (or_else (p_is_deleted updates) (is_deleted existing))
         pending
         (or_else (p_server_id updates) (server_id existing))
         (or_else (p_last_synced_at updates) (last_synced_at existing)).

Definition updateTask (i : string) (updates : PartialTask) : M (option Task) :=
  existing <- db_getTask i ;;
  match existing with
  | None => ret None
  | Some e =>
      if is_deleted e then ret None
      else
        d <- now ;;
        let updatedTask := merge_updates e updates d in
        db_updateTask updatedTask ;;;
        n <- now ;;
        db_addToSyncQueue i op_update n ;;;
        ret (Some updatedTask)
  end.

Definition deleteTask (i : string) : M bool :=
  existing <- db_getTask i ;;
  match existing with
  | None => ret false
  | Some e =>
      d <- now ;;
      let updatedTask :=
        mkTask (id e) (title e) (description e) (completed e) (created_at e)
               d true pending (server_id e) (last_synced_at e) in
      db_updateTask updatedTask ;;;
      n <- now ;;
      db_addToSyncQueue i op_delete n ;;;
      ret true
  end.

Definition getTask (i : string) : M (option Task) :=
  task <- db_getTask i ;;
  match task with
  | None => ret None
  | Some t => if is_deleted t then ret None else ret (Some t)
  end.

(** *** [SyncService] *)

(** The error of a call to a method that the object does not have. *)
Definition no_query : string := "TypeError: this.db.query is not a function".

(** [await this.db.query(sql, params)]: [Database] has no [query], so the
    call throws before anything is sent to SQLite. *)
Definition db_query {A} (sql : string) : M A := throw no_query.

(** [SyncService.addToSyncQueue]. *)
Definition addToSyncQueue (taskId : string) (op : Operation) (d : PartialTask) : M unit :=
  db_query "INSERT INTO sync_queue(task_id, operation, data, retry_count) VALUES (?, ?, ?, 0)".

Definition updateSyncStatus (taskId : string) (status : SyncStatus)
           (serverData : option PartialTask) : M unit :=
  match status with
  | synced =>
      db_query (A := unit)
        "UPDATE tasks SET sync_status='synced', last_synced_at=CURRENT_TIMESTAMP WHERE id=?" ;;;
      db_query (A := unit) "DELETE FROM sync_queue WHERE task_id=?" ;;;
      match serverData with
      | Some d => updateTask taskId d ;;; ret tt
      | None => ret tt
      end
  | _ =>
      db_query "UPDATE tasks SET sync_status='error' WHERE id=?"
  end.

(** [handleSyncError item error], on [error.message]. *)
Definition handleSyncError (item : SyncQueueItem) (message : string) : M unit :=
  let retry := retry_count item + 1 in
  let msg := if String.eqb message "" then "Unknown sync error" else message in
  if MAX_RETRY <=? retry
  then db_query "UPDATE sync_queue SET retry_count=?, error=?, permanent_fail=1 WHERE id=?"
  else db_query "UPDATE sync_queue SET retry_count=?, error=? WHERE id=?".

(** The body of the [for (const res of results.results)] loop. *)
Definition handle_outcome (item : SyncQueueItem) (res : ItemResult)
           (success failed : Z) : M (Z * Z) :=
  if String.eqb (r_status res) "success" then
    updateSyncStatus (task_id item) synced (r_data res) ;;;
    ret (success + 1, failed)
  else if String.eqb (r_status res) "conflict" then
    local <- getTask (task_id item) ;;
    match local, r_serverData res with
    | Some l, Some s =>
        let resolved := resolveConflict l s in
        updateTask (task_id item) (as_partial resolved) ;;;
        updateSyncStatus (task_id item) synced None ;;;
        ret (success + 1, failed)
    | _, _ => throw "TypeError: Cannot read properties of null (reading 'updated_at')"
    end
  else
    handleSyncError item (or_else (r_message res) "") ;;;
    ret (success, failed + 1).

Definition processResult (items : list SyncQueueItem) (res : ItemResult)
           (success failed : Z) : M (Z * Z) :=
  match find (fun i => String.eqb (task_id i) (r_taskId res)) items with
  | None => ret (success, failed)
  | Some item => handle_outcome item res success failed
  end.

Fixpoint results_loop (items : list SyncQueueItem) (results : list ItemResult)
         (success failed : Z) : M (Z * Z) :=
  match results with
  | [] => ret (success, failed)
  | res :: rest =>
      c <- processResult items res success failed ;;
      results_loop items rest (fst c) (snd c)
  end.

Definition request_of (items : list SyncQueueItem) : BatchSyncRequest :=
  mkRequest (map (fun i => mkOp (task_id i) (operation i) (data i)) items).

(** [await axios.post(url, req)]: the request is put on the wire, then the
    promise settles. *)
Definition post (url : string) (req : BatchSyncRequest) : M (option (list ItemResult)) :=
  fun w =>
    let w' := mkWorld (tasks w) (sync_queue w) (reads w) (posts w ++ [(url, req)]) in
    match axios_post (List.length (posts w)) url req with
    | PostRejected => Thrown "Network Error" w'
    | PostResolved r => Returned r w'
    end.

Definition processBatch (items : list SyncQueueItem) : M (Z * Z) :=
  let req := request_of items in
  results <- post (apiUrl ++ "/tasks/batch")%string req ;;
  match results with
  | None => throw "TypeError: results.results is not iterable"
  | Some rs => results_loop items rs 0 0
  end.

(** The [catch] block of [sync]. *)
Fixpoint fail_batch (batch : list SyncQueueItem) (failed : Z) : M Z :=
  match batch with
  | [] => ret failed
  | item :: rest =>
      handleSyncError item "Batch failed" ;;;
      fail_batch rest (failed + 1)
  end.

(** [for (let i = 0; i < queue.length; i += SYNC_BATCH_SIZE)
      batches.push(queue.slice(i, i + SYNC_BATCH_SIZE))].
    [None]: the fuel ran out before the loop condition failed. *)
Fixpoint batch_loop (fuel : nat) (queue : list SyncQueueItem) (i : Z)
         (batches : list (list SyncQueueItem)) : option (list (list SyncQueueItem)) :=
  if i <? Z.of_nat (List.length queue) then
    match fuel with
    | O => None
    | S fuel' =>
        batch_loop fuel' queue (i + SYNC_BATCH_SIZE)
                   (batches ++ [slice queue i (i + SYNC_BATCH_SIZE)])
    end
  else Some batches.

(** The [try { ... } catch { ... }] of [sync], for one batch. *)
Definition try_batch (batch : list SyncQueueItem) (success failed : Z) : M (Z * Z) :=
  try_catch
    (result <- processBatch batch ;;
     ret (success + fst result, failed + snd result))
    (fun _ => f <- fail_batch batch failed ;; ret (success, f)).

(** [for (const batch of batches)] and the [return] after it. *)
Fixpoint batches_loop (batches : list (list SyncQueueItem)) (success failed : Z)
  : M SyncResult :=
  match batches with
  | [] => ret (mkResult success failed 0)
  | batch :: rest =>
      c <- try_batch batch success failed ;;
      batches_loop rest (fst c) (snd c)
  end.

(** [sync].  Its first statement is a [db.query].  In what follows it, a
    step size of at least one ends the batching loop within [queue.length]
    iterations, and no other step size ends it at all ([batch_loop_ends],
    [batch_loop_runs_forever]): with [queue.length] as fuel, [None] is a loop
    that does not terminate. *)
Definition sync : M SyncResult :=
  queue <- db_query "SELECT * FROM sync_queue ORDER BY id ASC" ;;
  if (List.length queue =? 0)%nat then ret (mkResult 0 0 0)
  else
    match batch_loop (List.length queue) queue 0 [] with
    | None => fun _ => Diverged
    | Some batches => batches_loop batches 0 0
    end.

(** [checkConnectivity]. *)
Definition checkConnectivity : M bool :=
  try_catch
    ((fun w => if axios_get (apiUrl ++ "/health")%string 5000
               then Returned tt w else Thrown "timeout of 5000ms exceeded" w) ;;;
     ret true)
    (fun _ => ret false).

End Engine.

(** ** Scenarios

    Concrete records, queues, clocks and remote authorities on which the
    engine is run below. *)

Module Scenario.

Definition url : string := "http://localhost:3000/api".

(** A clock that advances by one millisecond per reading, and one that is
    read several times within the same millisecond. *)
Definition ticking (n : nat) : Z := 100 + Z.of_nat n.
Definition frozen (_ : nat) : Z := 7.

Definition record (i : string) (u : Z) : Task :=
  mkTask i "title" "" false 1 u false pending None None.

Definition entry (k : Z) (i : string) (op : Operation) : SyncQueueItem :=
  mkItem k None i op None None 0 None false.

Definition taskA : Task := record "A" 1.
Definition taskC : Task := record "C" 1.

Definition createA : SyncQueueItem := entry 1 "A" op_create.
Definition updateC : SyncQueueItem := entry 1 "C" op_update.

Definition world (ts : list Task) (q : list SyncQueueItem) : World :=
  mkWorld ts q 0 [].

(** The remote answers every operation of a request with the same status. *)
Definition answer_all (status : string) (d : option PartialTask)
           (message : option string) (_ : nat) (_ : string)
           (req : BatchSyncRequest) : PostOutcome :=
  PostResolved (Some (map (fun o => mkItemResult (op_taskId o) status d None message)
                          (operations req))).

Definition unreachable (_ : nat) (_ : string) (_ : BatchSyncRequest) : PostOutcome :=
  PostRejected.

(** The authoritative fields a remote returns with a success. *)
Definition assigned_server_id : PartialTask :=
  mkPartial None None None None None None None None (Some (Some "srv-1")) None.

Definition sync_status_of (i : string) (w : World) : option SyncStatus :=
  option_map sync_status (find (fun t => String.eqb (id t) i) (tasks w)).


(** Two records with the same [updated_at]. *)
Definition tie_local : Task := record "B" 100.
Definition tie_server : Task :=
  mkTask "B" "server title" "" true 1 100 false synced (Some "srv-9") None.

(** The engine with the default batch size, against [remote]. *)
Definition run_sync (clock : nat -> Z)
           (remote : nat -> string -> BatchSyncRequest -> PostOutcome) : M SyncResult :=
  sync 10 url clock remote.

(** [k] updates of the record [i], one after the other. *)
Fixpoint updates (k : nat) (clock : nat -> Z) (i : string) : M unit :=
  match k with
  | O => ret tt
  | S k' => updateTask clock i no_updates ;;; updates k' clock i
  end.

(** A record is created, updated and deleted. *)
Definition lifecycle (clock : nat -> Z) (i : string) : M bool :=
  createTask clock i
    (mkPartial None (Some "title") None None None None None None None None) ;;;
  updateTask clock i no_updates ;;;
  deleteTask clock i.

(** What a pass leaves behind: its result, the status of a record, and the
    columns of the queue the failure path writes. *)
Definition result_of {A} (o : Outcome A) : option A :=
  match o with Returned a _ => Some a | _ => None end.

Definition status_after {A} (i : string) (o : Outcome A) : option SyncStatus :=
  match world_of o with Some w => sync_status_of i w | None => None end.

Definition queue_after {A} (o : Outcome A) : list (Z * string * Operation * Z * bool) :=
  match world_of o with
  | Some w => map (fun row => (q_id row, task_id row, operation row,
                               retry_count row, permanent_fail row)) (sync_queue w)
  | None => []
  end.

Definition errors_after {A} (o : Outcome A) : list (option string) :=
  match world_of o with Some w => map error (sync_queue w) | None => [] end.

Definition sent_after {A} (o : Outcome A) : list (list string) :=
  match world_of o with
  | Some w => map (fun p => map op_taskId (operations (snd p))) (posts w)
  | None => []
  end.

(** A queue of [n] entries, one per record. *)
Definition backlog (n : nat) : list SyncQueueItem :=
  map (fun k => entry (Z.of_nat k) (string_of_Z (Z.of_nat k)) op_update) (seq 1 n).

End Scenario.

(** ** Frame conditions *)

(** [m] returns or throws, and either way leaves a world related to the one it
    started from by [P]. *)
Definition frames (P : World -> World -> Prop) {A} (m : M A) : Prop :=
  forall w, match m w with
            | Returned _ w' | Thrown _ w' => P w w'
            | Diverged => False
            end.

(** The local state: both tables. *)
Definition local_state (w : World) : list Task * list SyncQueueItem :=
  (tasks w, sync_queue w).

(** The item a result is matched to. *)
Definition matched (items : list SyncQueueItem) (res : ItemResult) : option SyncQueueItem :=
  find (fun i => String.eqb (task_id i) (r_taskId res)) items.

(** ** Reads of the record store *)

Definition status_eqb (a b : SyncStatus) : bool :=
  match a, b with
  | pending, pending | synced, synced | error_status, error_status => true
  | _, _ => false
  end.

(** [Database.getAllTasks]: [SELECT * FROM tasks WHERE is_deleted = 0]. *)
Definition db_getAllTasks : M (list Task) :=
  gets (fun w => filter (fun t => negb (is_deleted t)) (tasks w)).

(** [TaskService.getAllTasks]: [tasks.filter(t => !t.is_deleted)]. *)
Definition getAllTasks : M (list Task) :=
  ts <- db_getAllTasks ;;
  ret (filter (fun t => negb (is_deleted t)) ts).

(** [Database.getTasksBySyncStatus]:
    [SELECT * FROM tasks WHERE sync_status IN (...) AND is_deleted = 0]. *)
Definition db_getTasksBySyncStatus (statuses : list SyncStatus) : M (list Task) :=
  gets (fun w => filter (fun t => existsb (status_eqb (sync_status t)) statuses
                                  && negb (is_deleted t)) (tasks w)).

(** [TaskService.getTasksNeedingSync]. *)
Definition getTasksNeedingSync : M (list Task) :=
  db_getTasksBySyncStatus [pending; error_status].

(** ** The sync route *)

(** What a handler of the router answers: the status code and the JSON
    body. *)
Inductive Body :=
| ErrorBody (err : string)
| SyncCompleted (message : string) (result : SyncResult).

Record HttpResponse := mkResponse { code : Z; body : Body }.

(** [router.post('/sync', ...)] of [createSyncRouter]. *)
Definition post_sync (SYNC_BATCH_SIZE : Z) (apiUrl : string) (clock : nat -> Z)
           (axios_post : nat -> string -> BatchSyncRequest -> PostOutcome)
           (axios_get : string -> Z -> bool) : M HttpResponse :=
  try_catch
    (online <- checkConnectivity apiUrl axios_get ;;
     if negb online
     then ret (mkResponse 503 (ErrorBody "No internet connection"))
     else
       result <- sync SYNC_BATCH_SIZE apiUrl clock axios_post ;;
       ret (mkResponse 200 (SyncCompleted "Sync completed" result)))
    (fun _ => ret (mkResponse 500 (ErrorBody "Failed to sync data"))).

(** ** Invariants of the tables *)

(** The same records are stored, in the same order, each with the [id] and
    the [created_at] it had. *)
Definition same_records (w w' : World) : Prop :=
  Forall2 (fun t t' => id t' = id t /\ created_at t' = created_at t)
          (tasks w) (tasks w').

(** No record has the status [error] unless it had it before. *)
Definition no_new_error (w w' : World) : Prop :=
  Forall2 (fun t t' => sync_status t' = error_status -> sync_status t = error_status)
          (tasks w) (tasks w').

(** Every queue row is still there, as it was and where it was: the queue has
    only grown at its end. *)
Definition rows_kept (w w' : World) : Prop :=
  exists added, sync_queue w' = sync_queue w ++ added.


(** [n] calls of [sync], one after the other, each awaited in a [try] whose
    [catch] goes on to the next: what the last one leaves. *)
Fixpoint sync_times (n : nat) (SYNC_BATCH_SIZE : Z) (apiUrl : string) (clock : nat -> Z)
         (axios_post : nat -> string -> BatchSyncRequest -> PostOutcome)
  : M (list (option SyncResult)) :=
  match n with
  | O => ret []
  | S n' =>
      r <- try_catch (r <- sync SYNC_BATCH_SIZE apiUrl clock axios_post ;; ret (Some r))
                     (fun _ => ret None) ;;
      rs <- sync_times n' SYNC_BATCH_SIZE apiUrl clock axios_post ;;
      ret (r :: rs)
  end.


(** ** Conflict resolution *)

Lemma new_Date_valid x : Z.abs x <= MAX_TIME -> new_Date x = Some x.
Proof. intro H. unfold new_Date. apply Z.leb_le in H. now rewrite H. Qed.

Lemma new_Date_invalid x : MAX_TIME < Z.abs x -> new_Date x = None.
Proof.
  intro H. unfold new_Date.
  destruct (Z.leb_spec (Z.abs x) MAX_TIME); [lia | reflexivity].
Qed.

(** C1, as the source has it: for two records whose [updated_at] are time
    values a [Date] can hold, the local record wins when its [updated_at] is
    strictly later, and the server record wins in every other case, the tie
    included. *)
Theorem resolveConflict_later_local_else_server (L R : Task) :
  Z.abs (updated_at L) <= MAX_TIME ->
  Z.abs (updated_at R) <= MAX_TIME ->
  (updated_at R < updated_at L -> resolveConflict L R = L) /\
  (updated_at L < updated_at R -> resolveConflict L R = R) /\
  (updated_at L = updated_at R -> resolveConflict L R = R).
Proof.
  intros HL HR. unfold resolveConflict.
  rewrite (new_Date_valid _ HL), (new_Date_valid _ HR). simpl.
  repeat split; intro H.
  - apply Z.ltb_lt in H. now rewrite H.
  - destruct (Z.ltb_spec (updated_at R) (updated_at L)); [lia | reflexivity].
  - destruct (Z.ltb_spec (updated_at R) (updated_at L)); [lia | reflexivity].
Qed.

Lemma resolveConflict_later_local_else_server_witness :
  resolveConflict (Scenario.record "B" 200) Scenario.tie_server = Scenario.record "B" 200 /\
  resolveConflict Scenario.tie_local (Scenario.record "B" 200) = Scenario.record "B" 200 /\
  resolveConflict Scenario.tie_local Scenario.tie_server = Scenario.tie_server.
Proof.
  assert (H200 : Z.abs (updated_at (Scenario.record "B" 200)) <= MAX_TIME)
    by (vm_compute; discriminate).
  assert (Hl : Z.abs (updated_at Scenario.tie_local) <= MAX_TIME)
    by (vm_compute; discriminate).
  assert (Hs : Z.abs (updated_at Scenario.tie_server) <= MAX_TIME)
    by (vm_compute; discriminate).
  destruct (resolveConflict_later_local_else_server
              (Scenario.record "B" 200) Scenario.tie_server H200 Hs) as [H1 _].
  destruct (resolveConflict_later_local_else_server
              Scenario.tie_local (Scenario.record "B" 200) Hl H200) as [_ [H2 _]].
  destruct (resolveConflict_later_local_else_server
              Scenario.tie_local Scenario.tie_server Hl Hs) as [_ [_ H3]].
  split; [apply H1; vm_compute; reflexivity|].
  split; [apply H2; vm_compute; reflexivity|].
  apply H3; reflexivity.
Defined.

(** C1 fails on a tie: with equal timestamps the server record is returned,
    not the local one. *)
Lemma resolveConflict_tie_not_local :
  updated_at Scenario.tie_local = updated_at Scenario.tie_server /\
  resolveConflict Scenario.tie_local Scenario.tie_server <> Scenario.tie_local.
Proof.
  split; [reflexivity|].
  vm_compute. discriminate.
Qed.

(** X2: when both [updated_at] are time values a [Date] can hold, the record
    [resolveConflict] returns carries the later of the two; as soon as one of
    them is out of that range, its [Date] is invalid, the comparison is false
    and the server record is returned, also when the local timestamp is the
    larger number. *)
Theorem resolveConflict_keeps_latest (L R : Task) :
  (Z.abs (updated_at L) <= MAX_TIME -> Z.abs (updated_at R) <= MAX_TIME ->
   updated_at (resolveConflict L R) = Z.max (updated_at L) (updated_at R)) /\
  (MAX_TIME < Z.abs (updated_at L) \/ MAX_TIME < Z.abs (updated_at R) ->
   resolveConflict L R = R).
Proof.
  unfold resolveConflict. split.
  - intros HL HR. rewrite (new_Date_valid _ HL), (new_Date_valid _ HR). simpl.
    destruct (Z.ltb_spec (updated_at R) (updated_at L)); lia.
  - intros [H|H].
    + now rewrite (new_Date_invalid _ H).
    + rewrite (new_Date_invalid _ H).
      destruct (new_Date (updated_at L)); reflexivity.
Qed.

Lemma resolveConflict_keeps_latest_witness :
  updated_at (resolveConflict (Scenario.record "B" 200) Scenario.tie_server) = 200 /\
  resolveConflict (Scenario.record "B" 8640000000000001) (Scenario.record "B" 0)
  = Scenario.record "B" 0.
Proof.
  split.
  - apply (proj1 (resolveConflict_keeps_latest
                    (Scenario.record "B" 200) Scenario.tie_server));
      vm_compute; discriminate.
  - apply (proj2 (resolveConflict_keeps_latest
                    (Scenario.record "B" 8640000000000001) (Scenario.record "B" 0))).
    left. vm_compute. reflexivity.
Defined.
(** ** The state monad *)

Section Frames.

Variable P : World -> World -> Prop.
Hypothesis P_refl : forall w, P w w.
Hypothesis P_trans : forall w1 w2 w3, P w1 w2 -> P w2 w3 -> P w1 w3.

Lemma frames_ret {A} (a : A) : frames P (ret a).
Proof. intro w. apply P_refl. Qed.

Lemma frames_throw {A} (e : string) : frames P (@throw A e).
Proof. intro w. apply P_refl. Qed.

Lemma frames_gets {A} (f : World -> A) : frames P (gets f).
Proof. intro w. apply P_refl. Qed.

Lemma frames_modify (f : World -> World) :
  (forall w, P w (f w)) -> frames P (modify f).
Proof. intros H w. apply H. Qed.

Lemma frames_bind {A B} (m : M A) (k : A -> M B) :
  frames P m -> (forall a, frames P (k a)) -> frames P (bind m k).
Proof.
  intros Hm Hk w. unfold bind. specialize (Hm w).
  destruct (m w) as [a w1|e w1|]; [|assumption|contradiction].
  specialize (Hk a w1). destruct (k a w1); try contradiction; eauto.
Qed.

Lemma frames_try_catch {A} (m : M A) (h : string -> M A) :
  frames P m -> (forall e, frames P (h e)) -> frames P (try_catch m h).
Proof.
  intros Hm Hh w. unfold try_catch. specialize (Hm w).
  destruct (m w) as [a w1|e w1|]; [assumption| |contradiction].
  specialize (Hh e w1). destruct (h e w1); try contradiction; eauto.
Qed.

End Frames.

(** ** Batching *)

Section Batching.

Variable SYNC_BATCH_SIZE : Z.

Lemma slice_chunk (queue : list SyncQueueItem) (i : Z) :
  0 < SYNC_BATCH_SIZE -> 0 <= i < Z.of_nat (List.length queue) ->
  let b := slice queue i (i + SYNC_BATCH_SIZE) in
  b ++ skipn (Z.to_nat (i + SYNC_BATCH_SIZE)) queue = skipn (Z.to_nat i) queue /\
  (0 < List.length b)%nat /\ Z.of_nat (List.length b) <= SYNC_BATCH_SIZE.
Proof.
  intros HB Hi. unfold slice.
  destruct (Z.ltb_spec i 0) as [?|_]; [lia|].
  destruct (Z.ltb_spec (i + SYNC_BATCH_SIZE) 0) as [?|_]; [lia|].
  rewrite (Z.min_l i) by lia.
  set (len := Z.of_nat (List.length queue)) in *.
  destruct (Z.le_gt_cases (i + SYNC_BATCH_SIZE) len) as [Hle|Hgt].
  - rewrite Z.min_l by lia.
    replace (i + SYNC_BATCH_SIZE - i) with SYNC_BATCH_SIZE by lia.
    replace (Z.to_nat (i + SYNC_BATCH_SIZE))
      with (Z.to_nat SYNC_BATCH_SIZE + Z.to_nat i)%nat by lia.
    rewrite <- skipn_skipn, firstn_skipn.
    split; [reflexivity|].
    rewrite length_firstn, length_skipn. subst len. lia.
  - rewrite Z.min_r by lia.
    rewrite (skipn_all2 queue (n := Z.to_nat (i + SYNC_BATCH_SIZE))) by lia.
    rewrite firstn_all2 by (rewrite length_skipn; subst len; lia).
    rewrite app_nil_r. split; [reflexivity|].
    rewrite length_skipn. subst len. lia.
Qed.

(** With a positive step the loop ends within [queue.length] iterations, and
    its batches are the rest of the queue cut into pieces. *)
Lemma batch_loop_ends (queue : list SyncQueueItem) :
  0 < SYNC_BATCH_SIZE ->
  forall fuel i acc,
    0 <= i -> Z.of_nat (List.length queue) - i <= Z.of_nat fuel ->
    exists bs,
      batch_loop SYNC_BATCH_SIZE fuel queue i acc = Some (acc ++ bs) /\
      List.concat bs = skipn (Z.to_nat i) queue /\
      Forall (fun b => (0 < List.length b)%nat /\
                       Z.of_nat (List.length b) <= SYNC_BATCH_SIZE) bs /\
      Z.of_nat (List.length bs) =
        (Z.max 0 (Z.of_nat (List.length queue) - i) + SYNC_BATCH_SIZE - 1)
        / SYNC_BATCH_SIZE.
Proof.
  intros HB fuel.
  induction fuel as [|fuel IH]; intros i acc Hi Hfuel;
    cbn [batch_loop];
    destruct (Z.ltb_spec i (Z.of_nat (List.length queue))) as [Hlt|Hge];
    try lia.
  1, 3:
    exists []; rewrite app_nil_r; split; [reflexivity|];
    split; [simpl; symmetry; apply skipn_all2; lia|];
    split; [constructor|];
    rewrite Z.max_l by lia; simpl; symmetry; apply Z.div_small; lia.
  destruct (IH (i + SYNC_BATCH_SIZE)
               (acc ++ [slice queue i (i + SYNC_BATCH_SIZE)]))
    as (bs & Hrun & Hcat & Hall & Hlen); [lia|lia|].
  destruct (slice_chunk queue i HB) as (Hc & Hpos & Hle); [lia|].
  exists (slice queue i (i + SYNC_BATCH_SIZE) :: bs).
  split; [rewrite Hrun, <- app_assoc; reflexivity|].
  split; [simpl; rewrite Hcat; exact Hc|].
  split; [constructor; auto|].
  cbn [List.length]. rewrite Nat2Z.inj_succ, Hlen.
  set (len := Z.of_nat (List.length queue)) in *.
  rewrite (Z.max_r 0 (len - i)) by lia.
  replace (len - i + SYNC_BATCH_SIZE - 1)
    with (len - i - 1 + 1 * SYNC_BATCH_SIZE) by lia.
  rewrite Z.div_add by lia.
  destruct (Z.le_gt_cases 0 (len - (i + SYNC_BATCH_SIZE))) as [Hr|Hr].
  - rewrite Z.max_r by lia.
    replace (len - (i + SYNC_BATCH_SIZE) + SYNC_BATCH_SIZE - 1)
      with (len - i - 1) by lia.
    lia.
  - rewrite Z.max_l by lia.
    rewrite (Z.div_small (0 + SYNC_BATCH_SIZE - 1)) by lia.
    rewrite (Z.div_small (len - i - 1)) by lia. reflexivity.
Qed.

(** With any other step the loop condition holds forever. *)
Lemma batch_loop_runs_forever (queue : list SyncQueueItem) :
  SYNC_BATCH_SIZE <= 0 -> queue <> [] ->
  forall fuel i acc, i <= 0 -> batch_loop SYNC_BATCH_SIZE fuel queue i acc = None.
Proof.
  intros HB Hne fuel.
  assert (0 < Z.of_nat (List.length queue)) by (destruct queue; [congruence|simpl; lia]).
  induction fuel as [|fuel IH]; intros i acc Hi; cbn [batch_loop];
    destruct (Z.ltb_spec i (Z.of_nat (List.length queue))); try lia.
  - reflexivity.
  - apply IH. lia.
Qed.

End Batching.

(** ** Enqueueing *)

(** An update of a live record whose [queue_id] is not taken appends one
    entry, with [retry_count] 0 and [permanent_fail] unset, after the entries
    already queued. *)
Lemma updateTask_enqueues (clock : nat -> Z) (i : string) (u : PartialTask)
      (w : World) (e : Task) :
  let queueId := (i ++ "-" ++ string_of_Z (clock (S (S (reads w)))))%string in
  find (fun t => String.eqb (id t) i) (tasks w) = Some e ->
  is_deleted e = false ->
  Forall (fun row => queue_id row <> Some queueId) (sync_queue w) ->
  exists w',
    updateTask clock i u w
      = Returned (Some (merge_updates e u (clock (reads w)))) w' /\
    sync_queue w' =
      sync_queue w ++
      [mkItem (fresh_id (sync_queue w)) (Some queueId) i op_update None
              (Some (clock (S (reads w)))) 0 None false].
Proof.
  intros queueId Hfind Hlive Hfree.
  unfold updateTask, db_getTask, bind, gets. rewrite Hfind, Hlive.
  unfold now, db_updateTask, db_addToSyncQueue, modify, bind, gets; simpl.
  fold queueId.
  replace (existsb _ (sync_queue w)) with false.
  - eexists. split; reflexivity.
  - symmetry. apply not_true_is_false. intro Hex.
    apply existsb_exists in Hex. destruct Hex as (row & Hin & Hrow).
    rewrite Forall_forall in Hfree. specialize (Hfree row Hin).
    destruct (queue_id row) as [k|]; [|discriminate].
    apply String.eqb_eq in Hrow. apply Hfree. now rewrite Hrow.
Qed.


(** ** The missing [query] *)

(** [sync] throws at its first statement, whatever the queue, the batch size
    and the remote. *)
Lemma sync_rejects (SYNC_BATCH_SIZE : Z) (apiUrl : string) (clock : nat -> Z)
      (axios_post : nat -> string -> BatchSyncRequest -> PostOutcome) (w : World) :
  sync SYNC_BATCH_SIZE apiUrl clock axios_post w = Thrown no_query w.
Proof. reflexivity. Qed.

Lemma handleSyncError_rejects (item : SyncQueueItem) (message : string) (w : World) :
  handleSyncError item message w = Thrown no_query w.
Proof.
  unfold handleSyncError. destruct (MAX_RETRY <=? retry_count item + 1); reflexivity.
Qed.

Lemma updateSyncStatus_rejects (clock : nat -> Z) (t : string) (s : SyncStatus)
      (d : option PartialTask) (w : World) :
  updateSyncStatus clock t s d w = Thrown no_query w.
Proof. destruct s; reflexivity. Qed.

Lemma addToSyncQueue_rejects (t : string) (op : Operation) (d : PartialTask) (w : World) :
  addToSyncQueue t op d w = Thrown no_query w.
Proof. reflexivity. Qed.


(** ** What every operation of the engine preserves *)

Section EngineFrames.

Variable SYNC_BATCH_SIZE : Z.
Variable apiUrl : string.
Variable clock : nat -> Z.
Variable axios_post : nat -> string -> BatchSyncRequest -> PostOutcome.

Variable P : World -> World -> Prop.
Hypothesis P_refl : forall w, P w w.
Hypothesis P_trans : forall w1 w2 w3, P w1 w2 -> P w2 w3 -> P w1 w3.
Hypothesis P_now :
  forall w, P w (mkWorld (tasks w) (sync_queue w) (S (reads w)) (posts w)).
Hypothesis P_post :
  forall w x, P w (mkWorld (tasks w) (sync_queue w) (reads w) (posts w ++ [x])).
Hypothesis P_rows :
  forall g w,
    (forall row, id (g row) = id row /\ created_at (g row) = created_at row /\
                 (sync_status (g row) = error_status -> sync_status row = error_status)) ->
    P w (set_tasks (map g) w).
Hypothesis P_enqueue :
  forall w k t op d u,
    P w (set_queue (fun q => q ++ [mkItem (fresh_id q) k t op d u 0 None false]) w).

Ltac step :=
  match goal with
  | |- frames P (bind _ _) => apply (frames_bind P P_trans); [|intro]
  | |- frames P (ret _) => apply (frames_ret P P_refl)
  | |- frames P (throw _) => apply (frames_throw P P_refl)
  | |- frames P (db_query _) => apply (frames_throw P P_refl)
  | |- frames P (gets _) => apply (frames_gets P P_refl)
  | |- frames P (try_catch _ _) => apply (frames_try_catch P P_trans); [|intro]
  | |- frames P (match ?x with _ => _ end) => destruct x
  end.

Ltac rowwise :=
  apply frames_modify; intro; apply P_rows; intro;
  match goal with |- context [if ?c then _ else _] => destruct c end;
  (split; [reflexivity|split; [reflexivity|]]);
  simpl; first [discriminate | congruence | tauto].

Lemma now_frames : frames P (now clock).
Proof. intro w. apply P_now. Qed.

Lemma db_updateTask_frames t :
  sync_status t <> error_status -> frames P (db_updateTask t).
Proof. intro Ht. unfold db_updateTask. rowwise. Qed.

Lemma db_addToSyncQueue_frames i a u : frames P (db_addToSyncQueue clock i a u).
Proof.
  unfold db_addToSyncQueue.
  step; [apply now_frames|]. step; [step|]. step; [step|].
  apply frames_modify. intro. apply P_enqueue.
Qed.

Lemma db_getTask_frames i : frames P (db_getTask i).
Proof. unfold db_getTask. step. Qed.

Lemma updateTask_frames i u : frames P (updateTask clock i u).
Proof.
  unfold updateTask. step; [apply db_getTask_frames|].
  repeat step;
    auto using now_frames, db_addToSyncQueue_frames;
    apply db_updateTask_frames; discriminate.
Qed.

Lemma deleteTask_frames i : frames P (deleteTask clock i).
Proof.
  unfold deleteTask. step; [apply db_getTask_frames|].
  repeat step;
    auto using now_frames, db_addToSyncQueue_frames;
    apply db_updateTask_frames; discriminate.
Qed.

Lemma getTask_frames i : frames P (getTask i).
Proof. unfold getTask. step; [apply db_getTask_frames|]. repeat step. Qed.

Lemma updateSyncStatus_frames i s d : frames P (updateSyncStatus clock i s d).
Proof.
  intro w. rewrite updateSyncStatus_rejects. apply P_refl.
Qed.

Lemma handleSyncError_frames item msg : frames P (handleSyncError item msg).
Proof. intro w. rewrite handleSyncError_rejects. apply P_refl. Qed.

Lemma handle_outcome_frames item res s f :
  frames P (handle_outcome clock item res s f).
Proof.
  unfold handle_outcome.
  repeat step;
    auto using getTask_frames, updateTask_frames, updateSyncStatus_frames,
               handleSyncError_frames.
Qed.

Lemma processResult_frames items res s f :
  frames P (processResult clock items res s f).
Proof. unfold processResult. repeat step. apply handle_outcome_frames. Qed.

Lemma results_loop_frames items rs :
  forall s f, frames P (results_loop clock items rs s f).
Proof.
  induction rs as [|res rs IH]; intros s f; simpl.
  - step.
  - step; [apply processResult_frames | apply IH].
Qed.

Lemma fail_batch_frames batch : forall f, frames P (fail_batch batch f).
Proof.
  induction batch as [|item rest IH]; intro f; simpl.
  - step.
  - step; [apply handleSyncError_frames | apply IH].
Qed.

Lemma post_frames url req : frames P (post axios_post url req).
Proof. intro w. unfold post. destruct (axios_post _ _ _); apply P_post. Qed.

Lemma processBatch_frames items : frames P (processBatch apiUrl clock axios_post items).
Proof.
  unfold processBatch. step; [apply post_frames|].
  step; [apply results_loop_frames | step].
Qed.

Lemma try_batch_frames batch s f :
  frames P (try_batch apiUrl clock axios_post batch s f).
Proof.
  unfold try_batch. step.
  - step; [apply processBatch_frames | step].
  - step; [apply fail_batch_frames | step].
Qed.

Lemma sync_frames : frames P (sync SYNC_BATCH_SIZE apiUrl clock axios_post).
Proof. intro w. rewrite sync_rejects. apply P_refl. Qed.

End EngineFrames.

(** *** The queue *)

Lemma rows_kept_refl w : rows_kept w w.
Proof. exists []. now rewrite app_nil_r. Qed.

Lemma rows_kept_trans w1 w2 w3 : rows_kept w1 w2 -> rows_kept w2 w3 -> rows_kept w1 w3.
Proof.
  intros [a1 H1] [a2 H2]. exists (a1 ++ a2). now rewrite H2, H1, app_assoc.
Qed.

Lemma rows_kept_of_queue w w' : sync_queue w' = sync_queue w -> rows_kept w w'.
Proof. intro H. exists []. now rewrite H, app_nil_r. Qed.

Lemma rows_kept_enqueue w k t op d u :
  rows_kept w (set_queue (fun q => q ++ [mkItem (fresh_id q) k t op d u 0 None false]) w).
Proof. eexists. reflexivity. Qed.

Ltac queue_frames :=
  try exact rows_kept_refl; try exact rows_kept_trans; try exact rows_kept_enqueue;
  intros; now apply rows_kept_of_queue.

Lemma frames_run (P : World -> World -> Prop) {A} (m : M A) (w : World) :
  frames P m ->
  match world_of (m w) with Some w' => P w w' | None => False end.
Proof. intro H. specialize (H w). destruct (m w); simpl; auto. Qed.

(** C3: nothing the engine does removes a queue entry, so none is removed
    without a definitive outcome of its own and none is removed by the
    outcome of another: after a result of a batch is handled (skipped,
    success, conflict or failure), after a whole batch went through the [try]
    and the [catch] of [sync], and after [sync] itself, every row that was in
    the queue is still there, unchanged and in place; the queue has at most
    grown at its end. *)
Theorem queue_rows_are_never_removed
        (SYNC_BATCH_SIZE : Z) (apiUrl : string) (clock : nat -> Z)
        (axios_post : nat -> string -> BatchSyncRequest -> PostOutcome)
        (items : list SyncQueueItem) (res : ItemResult) (s f : Z) (w : World) :
  match world_of (processResult clock items res s f w) with
  | Some w' => rows_kept w w'
  | None => False
  end /\
  match world_of (try_batch apiUrl clock axios_post items s f w) with
  | Some w' => rows_kept w w'
  | None => False
  end /\
  match world_of (sync SYNC_BATCH_SIZE apiUrl clock axios_post w) with
  | Some w' => sync_queue w' = sync_queue w
  | None => False
  end.
Proof.
  split; [|split].
  - apply frames_run. apply (processResult_frames clock rows_kept); queue_frames.
  - apply frames_run.
    apply (try_batch_frames apiUrl clock axios_post rows_kept); queue_frames.
  - rewrite sync_rejects. reflexivity.
Qed.

(** ** A pass on the scenarios *)

(** C2: one queued [create] for record A, answered with [success] and the
    server-assigned [server_id].  [sync] throws at its first statement, the
    [db.query] that class [Database] does not define: no request is posted,
    no success is counted, the record stays [pending] and its entry stays in
    the queue.  Handed the batch directly, [processBatch] posts it and then
    throws in [updateSyncStatus], at the first [db.query], before any write:
    the record is still [pending], the entry still queued. *)
Theorem sync_rejects_before_recording_success :
  let w0 := Scenario.world [Scenario.taskA] [Scenario.createA] in
  let remote := Scenario.answer_all "success" (Some Scenario.assigned_server_id) None in
  let pass := Scenario.run_sync Scenario.ticking remote w0 in
  let batch := processBatch Scenario.url Scenario.ticking remote [Scenario.createA] w0 in
  (pass = Thrown no_query w0 /\
   Scenario.result_of pass = None /\
   Scenario.sent_after pass = [] /\
   Scenario.status_after "A" pass = Some pending /\
   Scenario.queue_after pass = [(1, "A", op_create, 0, false)]) /\
  (Scenario.result_of batch = None /\
   Scenario.sent_after batch = [["A"]] /\
   Scenario.status_after "A" batch = Some pending /\
   Scenario.queue_after batch = [(1, "A", op_create, 0, false)]).
Proof. vm_compute. repeat split. Qed.

(** C4: one queued [update] for record C, answered with a failure.  [sync]
    throws at its first statement; [handleSyncError] on the entry throws at
    its own [db.query] before it writes anything.  After one pass, and after
    three, the entry's [retry_count] is still 0, no message is recorded,
    [permanent_fail] is unset, nothing was counted as failed and the record
    is still [pending]. *)
Theorem sync_rejects_before_recording_failure :
  let w0 := Scenario.world [Scenario.taskC] [Scenario.updateC] in
  let remote := Scenario.answer_all "failure" None (Some "rejected by server") in
  let once := Scenario.run_sync Scenario.ticking remote w0 in
  let thrice := sync_times 3 10 Scenario.url Scenario.ticking Scenario.unreachable w0 in
  (once = Thrown no_query w0 /\
   Scenario.result_of once = None /\
   Scenario.queue_after once = [(1, "C", op_update, 0, false)] /\
   Scenario.errors_after once = [None] /\
   Scenario.status_after "C" once = Some pending) /\
  handleSyncError Scenario.updateC "rejected by server" w0 = Thrown no_query w0 /\
  (thrice = Returned [None; None; None] w0 /\
   Scenario.queue_after thrice = [(1, "C", op_update, 0, false)] /\
   Scenario.status_after "C" thrice = Some pending).
Proof. vm_compute. repeat split. Qed.



(** C6: one queued [update] for record C and a remote that cannot be
    reached.  [sync] raises: it throws the [TypeError] of its first statement
    and returns no counts.  The [try] and [catch] of one batch raise too: the
    round-trip is rejected, and in the [catch] block the first
    [handleSyncError] throws at its [db.query], so no item is marked and none
    is counted as failed. *)
Theorem sync_raises_instead_of_counting :
  let w0 := Scenario.world [Scenario.taskC] [Scenario.updateC] in
  let pass := Scenario.run_sync Scenario.ticking Scenario.unreachable w0 in
  let batch := try_batch Scenario.url Scenario.ticking Scenario.unreachable
                         [Scenario.updateC] 0 0 w0 in
  (pass = Thrown no_query w0 /\ Scenario.result_of pass = None) /\
  (Scenario.result_of batch = None /\
   Scenario.sent_after batch = [["C"]] /\
   Scenario.queue_after batch = [(1, "C", op_update, 0, false)] /\
   Scenario.errors_after batch = [None]).
Proof. vm_compute. repeat split. Qed.

(** C7: a queue of 25 entries and a batch size of 10.  The batching loop
    would cut it into batches of 10, 10 and 5, but [sync] never gets there: it
    throws at its first statement and issues no round-trip at all. *)
Theorem sync_posts_no_batch :
  let w0 := Scenario.world [] (Scenario.backlog 25) in
  let pass := Scenario.run_sync Scenario.ticking Scenario.unreachable w0 in
  option_map (map (@List.length _)) (batch_loop 10 25 (Scenario.backlog 25) 0 [])
    = Some [10; 10; 5]%nat /\
  pass = Thrown no_query w0 /\
  Scenario.result_of pass = None /\
  Scenario.sent_after pass = [].
Proof. vm_compute. repeat split. Qed.

(** C8: two updates of record A within the same millisecond.  The second
    INSERT carries the [queue_id] of the first and is rejected: [updateTask]
    throws and one entry is queued, not two.  With a clock that advances,
    three updates queue three entries, in order, each with [retry_count] 0 and
    [permanent_fail] unset, and so do a create, an update and a delete. *)
Theorem updateTask_same_millisecond_loses_entry :
  let w0 := Scenario.world [Scenario.taskA] [] in
  let twice := Scenario.updates 2 Scenario.frozen "A" w0 in
  let three := Scenario.updates 3 Scenario.ticking "A" w0 in
  (twice = Thrown "SQLITE_CONSTRAINT: UNIQUE constraint failed: sync_queue.queue_id"
                  (mkWorld [mkTask "A" "title" "" false 1 7 false pending None None]
                           [mkItem 1 (Some "A-7") "A" op_update None (Some 7) 0 None false]
                           6 []) /\
   Scenario.queue_after twice = [(1, "A", op_update, 0, false)]) /\
  (Scenario.result_of three = Some tt /\
   Scenario.queue_after three =
     [(1, "A", op_update, 0, false); (2, "A", op_update, 0, false);
      (3, "A", op_update, 0, false)]) /\
  Scenario.queue_after (Scenario.lifecycle Scenario.ticking "N" w0) =
    [(1, "N", op_create, 0, false); (2, "N", op_update, 0, false);
     (3, "N", op_delete, 0, false)].
Proof. vm_compute. repeat split. Qed.

(** ** Connectivity probe *)

(** C9: [checkConnectivity] returns, never throws; its value is [true] when
    the GET of the health endpoint, issued with a timeout of 5000 ms,
    resolves and [false] when it is rejected; the local state (records and
    queue, and the whole world with them) is left as it was. *)
Theorem checkConnectivity_gate (apiUrl : string) (axios_get : string -> Z -> bool)
        (w : World) :
  let answered := axios_get (apiUrl ++ "/health")%string 5000 in
  checkConnectivity apiUrl axios_get w = Returned answered w /\
  option_map local_state (world_of (checkConnectivity apiUrl axios_get w))
    = Some (local_state w).
Proof.
  intro answered.
  assert (H : checkConnectivity apiUrl axios_get w = Returned answered w).
  { unfold checkConnectivity, try_catch, bind, ret. subst answered.
    destruct (axios_get _ _); reflexivity. }
  split; [exact H|].
  rewrite H. reflexivity.
Qed.

(** ** Matching results to items *)

Lemma find_none_iff {A} (p : A -> bool) l :
  find p l = None <-> Forall (fun x => p x = false) l.
Proof.
  induction l as [|x l IH]; simpl.
  - split; auto.
  - destruct (p x) eqn:Hp; split; intro H.
    + discriminate.
    + inversion H; congruence.
    + constructor; [assumption | now apply IH].
    + inversion H; now apply IH.
Qed.

Lemma find_first {A} (p : A -> bool) pre x rest :
  Forall (fun y => p y = false) pre -> p x = true ->
  find p (pre ++ x :: rest) = Some x.
Proof.
  intros Hpre Hx. induction Hpre as [|y pre Hy _ IH]; simpl.
  - now rewrite Hx.
  - now rewrite Hy.
Qed.


Section Matching.

Variable clock : nat -> Z.


End Matching.


(** ** The record store *)

Lemma find_by_id_map (g : Task -> Task) (i : string) (l : list Task) :
  (forall row, id (g row) = id row) ->
  find (fun t => String.eqb (id t) i) (map g l)
  = option_map g (find (fun t => String.eqb (id t) i) l).
Proof.
  intro Hg. induction l as [|row l IH]; simpl; [reflexivity|].
  rewrite Hg. destruct (String.eqb (id row) i); auto.
Qed.

Lemma find_by_id_some (i : string) (l : list Task) (e : Task) :
  find (fun t => String.eqb (id t) i) l = Some e -> id e = i.
Proof.
  intro H. apply find_some in H. destruct H as [_ H]. now apply String.eqb_eq.
Qed.

Lemma queue_id_free (k : string) (q : list SyncQueueItem) :
  Forall (fun row => queue_id row <> Some k) q ->
  existsb (fun row => match queue_id row with
                      | Some k' => String.eqb k' k
                      | None => false
                      end) q = false.
Proof.
  intro Hfree. apply not_true_is_false. intro Hex.
  apply existsb_exists in Hex. destruct Hex as (row & Hin & Hrow).
  rewrite Forall_forall in Hfree. specialize (Hfree row Hin).
  destruct (queue_id row) as [k'|]; [|discriminate].
  apply String.eqb_eq in Hrow. apply Hfree. now rewrite Hrow.
Qed.

Section Records.

Variable clock : nat -> Z.

(** X3: [updateTask] returns null and changes nothing (no clock reading, no
    queue entry) exactly when [getTask] returns null for that id, that is when
    the record is absent or soft-deleted; [deleteTask] returns false and
    changes nothing exactly when no row has that id. *)
Theorem updateTask_deleteTask_on_hidden_record (i : string) (u : PartialTask) (w : World) :
  (getTask i w = Returned None w <-> updateTask clock i u w = Returned None w) /\
  (db_getTask i w = Returned None w <-> deleteTask clock i w = Returned false w).
Proof.
  unfold getTask, updateTask, deleteTask, db_getTask, bind, gets.
  destruct (find _ (tasks w)) as [e|]; [|repeat split; reflexivity].
  split.
  - destruct (is_deleted e); [split; reflexivity|].
    unfold now, db_updateTask, db_addToSyncQueue, modify, bind, gets, ret; simpl.
    destruct (existsb _ (sync_queue w)); simpl; split; discriminate.
  - unfold now, db_updateTask, db_addToSyncQueue, modify, bind, gets, ret; simpl.
    destruct (existsb _ (sync_queue w)); simpl; split; discriminate.
Qed.

(** X4: [deleteTask] on a stored record, already soft-deleted or not, whose
    [queue_id] is free: it returns true, the row stays in the table with
    [is_deleted] set and [sync_status] pending, a [delete] entry is appended
    to the queue, and from then on [getTask] and [updateTask] return null for
    the id and neither [getAllTasks] nor [getTasksNeedingSync] lists it. *)
Theorem deleteTask_hides_record (i : string) (w : World) (e : Task) :
  let queueId := (i ++ "-" ++ string_of_Z (clock (S (S (reads w)))))%string in
  find (fun t => String.eqb (id t) i) (tasks w) = Some e ->
  Forall (fun row => queue_id row <> Some queueId) (sync_queue w) ->
  exists w',
    deleteTask clock i w = Returned true w' /\
    db_getTask i w' =
      Returned (Some (mkTask (id e) (title e) (description e) (completed e)
                             (created_at e) (clock (reads w)) true pending
                             (server_id e) (last_synced_at e))) w' /\
    sync_queue w' =
      sync_queue w ++
      [mkItem (fresh_id (sync_queue w)) (Some queueId) i op_delete None
              (Some (clock (S (reads w)))) 0 None false] /\
    getTask i w' = Returned None w' /\
    (forall u, updateTask clock i u w' = Returned None w') /\
    (exists ts, getAllTasks w' = Returned ts w' /\ Forall (fun t => id t <> i) ts) /\
    (exists ts, getTasksNeedingSync w' = Returned ts w' /\
                Forall (fun t => id t <> i) ts).
Proof.
  intros queueId Hfind Hfree.
  pose proof (find_by_id_some _ _ _ Hfind) as Hid.
  set (g := fun row : Task =>
              if String.eqb (id row) (id e)
              then mkTask (id row) (title e) (description e) (completed e)
                          (created_at row) (clock (reads w)) true pending
                          (server_id e) (last_synced_at e)
              else row).
  assert (Hg : forall row, id (g row) = id row)
    by (intro row; unfold g; destruct (String.eqb (id row) (id e)); reflexivity).
  assert (Hdel : forall row, String.eqb (id (g row)) i = true -> is_deleted (g row) = true).
  { intros row. rewrite Hg. unfold g. rewrite Hid. now intros ->. }
  exists (mkWorld (map g (tasks w))
                  (sync_queue w ++
                   [mkItem (fresh_id (sync_queue w)) (Some queueId) i op_delete None
                           (Some (clock (S (reads w)))) 0 None false])
                  (S (S (S (reads w)))) (posts w)).
  split.
  { unfold deleteTask, db_getTask, bind, gets. rewrite Hfind.
    unfold now, db_updateTask, db_addToSyncQueue, modify, bind, gets; simpl.
    replace (existsb _ (sync_queue w)) with false
      by (symmetry; apply queue_id_free; exact Hfree).
    reflexivity. }
  assert (Hstored : find (fun t => String.eqb (id t) i) (map g (tasks w))
                    = Some (g e))
    by (rewrite find_by_id_map, Hfind; auto).
  assert (Hge : g e = mkTask (id e) (title e) (description e) (completed e)
                             (created_at e) (clock (reads w)) true pending
                             (server_id e) (last_synced_at e))
    by (unfold g; rewrite String.eqb_refl; reflexivity).
  assert (Hhidden : forall t, In t (map g (tasks w)) ->
                              negb (is_deleted t) = true -> id t <> i).
  { intros t Hin Hlive Heq.
    apply in_map_iff in Hin. destruct Hin as (row & <- & _).
    rewrite Hdel in Hlive; [discriminate|]. now apply String.eqb_eq. }
  split; [|split; [reflexivity|split; [|split; [|split]]]].
  - unfold db_getTask, gets; simpl. now rewrite Hstored, Hge.
  - unfold getTask, db_getTask, bind, gets; simpl. rewrite Hstored, Hge. reflexivity.
  - intro u. unfold updateTask, db_getTask, bind, gets; simpl.
    rewrite Hstored, Hge. reflexivity.
  - eexists. split; [reflexivity|]. simpl.
    apply Forall_forall. intros t Ht.
    apply filter_In in Ht. destruct Ht as [Ht Hlive].
    apply filter_In in Ht. destruct Ht as [Ht _]. auto.
  - eexists. split; [reflexivity|]. simpl.
    apply Forall_forall. intros t Ht.
    apply filter_In in Ht. destruct Ht as [Ht Hlive].
    apply andb_prop in Hlive. destruct Hlive as [_ Hlive]. auto.
Qed.

(** X5: [createTask] with a title, an id that no row has and a free
    [queue_id]: the new record is appended to the table, pending, not
    completed and not deleted; [getTask] of the new id returns exactly the
    task [createTask] returned; one [create] entry with [retry_count] 0 is
    appended to the queue. *)
Theorem createTask_then_getTask (fresh t : string) (taskData : PartialTask) (w : World) :
  let queueId := (fresh ++ "-" ++ string_of_Z (clock (3 + reads w)))%string in
  let task := mkTask fresh t (or_else (p_description taskData) "") false
                     (clock (1 + reads w)) (clock (2 + reads w))
                     false pending None None in
  p_title taskData = Some t ->
  find (fun row => String.eqb (id row) fresh) (tasks w) = None ->
  Forall (fun row => queue_id row <> Some queueId) (sync_queue w) ->
  exists w',
    createTask clock fresh taskData w = Returned task w' /\
    tasks w' = tasks w ++ [task] /\
    sync_queue w' =
      sync_queue w ++
      [mkItem (fresh_id (sync_queue w)) (Some queueId) fresh op_create None
              (Some (clock (reads w))) 0 None false] /\
    getTask fresh w' = Returned (Some task) w'.
Proof.
  intros queueId task Htitle Hnew Hfree.
  exists (mkWorld (tasks w ++ [task])
                  (sync_queue w ++
                   [mkItem (fresh_id (sync_queue w)) (Some queueId) fresh op_create None
                           (Some (clock (reads w))) 0 None false])
                  (4 + reads w) (posts w)).
  split; [|split; [reflexivity|split; [reflexivity|]]].
  - unfold createTask, now, bind; simpl. rewrite Htitle.
    unfold db_insertTask, db_getTask, db_addToSyncQueue, now, modify, bind, gets;
      simpl.
    rewrite Hnew.
    replace (existsb _ (sync_queue w)) with false
      by (symmetry; apply queue_id_free; exact Hfree).
    reflexivity.
  - unfold getTask, db_getTask, bind, gets; simpl.
    replace (find (fun t0 => String.eqb (id t0) fresh) (tasks w ++ [task]))
      with (Some task); [reflexivity|].
    symmetry. apply find_first.
    + now apply find_none_iff.
    + simpl. apply String.eqb_refl.
Qed.

(** What [updateTask] does on a live record when the INSERT goes through. *)
Lemma updateTask_live_spec (i : string) (u : PartialTask) (w : World) (e : Task) :
  let queueId := (i ++ "-" ++ string_of_Z (clock (S (S (reads w)))))%string in
  let merged := merge_updates e u (clock (reads w)) in
  let stored := mkTask i (title merged) (description merged) (completed merged)
                       (created_at e) (clock (reads w)) (is_deleted merged) pending
                       (server_id merged) (last_synced_at merged) in
  find (fun t => String.eqb (id t) i) (tasks w) = Some e ->
  is_deleted e = false ->
  p_id u = None ->
  Forall (fun row => queue_id row <> Some queueId) (sync_queue w) ->
  exists w',
    updateTask clock i u w = Returned (Some merged) w' /\
    db_getTask i w' = Returned (Some stored) w' /\
    sync_queue w' =
      sync_queue w ++
      [mkItem (fresh_id (sync_queue w)) (Some queueId) i op_update None
              (Some (clock (S (reads w)))) 0 None false] /\
    (is_deleted merged = false ->
     exists ts, getTasksNeedingSync w' = Returned ts w' /\ In stored ts).
Proof.
  intros queueId merged stored Hfind Hlive Hnoid Hfree.
  pose proof (find_by_id_some _ _ _ Hfind) as Hid.
  set (g := fun row : Task =>
              if String.eqb (id row) i
              then mkTask (id row) (title merged) (description merged)
                          (completed merged) (created_at row) (clock (reads w))
                          (is_deleted merged) pending
                          (server_id merged) (last_synced_at merged)
              else row).
  assert (Hg : forall row, id (g row) = id row)
    by (intro row; unfold g; destruct (String.eqb (id row) i); reflexivity).
  assert (Hge : g e = stored)
    by (unfold g, stored; rewrite Hid, String.eqb_refl; reflexivity).
  assert (Hstored : find (fun t => String.eqb (id t) i) (map g (tasks w)) = Some stored)
    by (rewrite find_by_id_map, Hfind; [simpl; now rewrite Hge | exact Hg]).
  exists (mkWorld (map g (tasks w))
                  (sync_queue w ++
                   [mkItem (fresh_id (sync_queue w)) (Some queueId) i op_update None
                           (Some (clock (S (reads w)))) 0 None false])
                  (S (S (S (reads w)))) (posts w)).
  split; [|split; [|split; [reflexivity|]]].
  - unfold updateTask, db_getTask, bind, gets. rewrite Hfind, Hlive.
    unfold now, db_updateTask, db_addToSyncQueue, modify, bind, gets; simpl.
    replace (existsb _ (sync_queue w)) with false
      by (symmetry; apply queue_id_free; exact Hfree).
    rewrite Hnoid. simpl. rewrite Hid. reflexivity.
  - unfold db_getTask, gets; simpl. now rewrite Hstored.
  - intro Hkept. eexists. split; [reflexivity|]. simpl.
    apply filter_In. split.
    + apply find_some in Hstored. apply Hstored.
    + cbv beta.
      replace (is_deleted stored) with false by (symmetry; exact Hkept).
      reflexivity.
Qed.

(** X6: [updateTask] of a live record, with updates that carry no [id], and
    a free [queue_id]: the row then stored has the merged fields, the new
    [updated_at] and [sync_status] pending, but keeps its [created_at] even
    when the updates (and the task returned) carry another one; one [update]
    entry is appended; and unless the updates set [is_deleted],
    [getTasksNeedingSync] lists the stored record. *)
Theorem updateTask_then_getTask (i : string) (u : PartialTask) (w : World) (e : Task) :
  let queueId := (i ++ "-" ++ string_of_Z (clock (S (S (reads w)))))%string in
  let merged := merge_updates e u (clock (reads w)) in
  let stored := mkTask i (title merged) (description merged) (completed merged)
                       (created_at e) (clock (reads w)) (is_deleted merged) pending
                       (server_id merged) (last_synced_at merged) in
  find (fun t => String.eqb (id t) i) (tasks w) = Some e ->
  is_deleted e = false ->
  p_id u = None ->
  Forall (fun row => queue_id row <> Some queueId) (sync_queue w) ->
  exists w',
    updateTask clock i u w = Returned (Some merged) w' /\
    db_getTask i w' = Returned (Some stored) w' /\
    sync_queue w' =
      sync_queue w ++
      [mkItem (fresh_id (sync_queue w)) (Some queueId) i op_update None
              (Some (clock (S (reads w)))) 0 None false] /\
    (is_deleted merged = false ->
     exists ts, getTasksNeedingSync w' = Returned ts w' /\ In stored ts).
Proof. exact (updateTask_live_spec i u w e). Qed.

End Records.

Lemma deleteTask_hides_record_witness :
  exists w',
    deleteTask Scenario.ticking "A" (Scenario.world [Scenario.taskA] [])
      = Returned true w' /\
    getTask "A" w' = Returned None w'.
Proof.
  destruct (deleteTask_hides_record Scenario.ticking "A"
              (Scenario.world [Scenario.taskA] []) Scenario.taskA
              ltac:(reflexivity) ltac:(constructor))
    as (w' & Hdel & _ & _ & Hget & _).
  exists w'. split; assumption.
Defined.

Lemma createTask_then_getTask_witness :
  exists task w',
    createTask Scenario.ticking "N"
      (mkPartial None (Some "title") None None None None None None None None)
      (Scenario.world [Scenario.taskA] []) = Returned task w' /\
    getTask "N" w' = Returned (Some task) w'.
Proof.
  destruct (createTask_then_getTask Scenario.ticking "N" "title"
              (mkPartial None (Some "title") None None None None None None None None)
              (Scenario.world [Scenario.taskA] [])
              ltac:(reflexivity) ltac:(reflexivity) ltac:(constructor))
    as (w' & Hrun & _ & _ & Hget).
  eexists _, w'. split; eassumption.
Defined.

Lemma updateTask_then_getTask_witness :
  exists t w',
    updateTask Scenario.ticking "A" Scenario.assigned_server_id
               (Scenario.world [Scenario.taskA] []) = Returned (Some t) w' /\
    exists ts, getTasksNeedingSync w' = Returned ts w' /\ ts <> [].
Proof.
  destruct (updateTask_then_getTask Scenario.ticking "A" Scenario.assigned_server_id
              (Scenario.world [Scenario.taskA] []) Scenario.taskA
              ltac:(reflexivity) ltac:(reflexivity) ltac:(reflexivity)
              ltac:(constructor))
    as (w' & Hrun & _ & _ & Hlist).
  destruct (Hlist ltac:(reflexivity)) as (ts & Hts & Hin).
  eexists _, w'. split; [exact Hrun|].
  exists ts. split; [exact Hts|]. intros ->. destruct Hin.
Defined.

(** ** Partial effects *)

Lemma queue_id_taken (k : string) (q : list SyncQueueItem) :
  Exists (fun row => queue_id row = Some k) q ->
  existsb (fun row => match queue_id row with
                      | Some k' => String.eqb k' k
                      | None => false
                      end) q = true.
Proof.
  intro H. apply existsb_exists. apply Exists_exists in H.
  destruct H as (row & Hin & Hk). exists row. split; [exact Hin|].
  rewrite Hk. apply String.eqb_refl.
Qed.

Section Partial.

Variable clock : nat -> Z.

(** X18: [updateTask] of a live record when a queue row already has the
    [queue_id] it builds (the same record mutated twice within one clock
    reading): the INSERT is rejected and [updateTask] throws, but the UPDATE
    of the record has already been done.  The row is stored with the merged
    fields and [sync_status] pending, and no queue entry stands for the
    change. *)
Theorem updateTask_collision_keeps_record_update
        (i : string) (u : PartialTask) (w : World) (e : Task) :
  let queueId := (i ++ "-" ++ string_of_Z (clock (S (S (reads w)))))%string in
  let merged := merge_updates e u (clock (reads w)) in
  let stored := mkTask i (title merged) (description merged) (completed merged)
                       (created_at e) (clock (reads w)) (is_deleted merged) pending
                       (server_id merged) (last_synced_at merged) in
  find (fun t => String.eqb (id t) i) (tasks w) = Some e ->
  is_deleted e = false ->
  p_id u = None ->
  Exists (fun row => queue_id row = Some queueId) (sync_queue w) ->
  exists w',
    updateTask clock i u w
      = Thrown "SQLITE_CONSTRAINT: UNIQUE constraint failed: sync_queue.queue_id" w' /\
    db_getTask i w' = Returned (Some stored) w' /\
    sync_queue w' = sync_queue w.
Proof.
  intros queueId merged stored Hfind Hlive Hnoid Htaken.
  pose proof (find_by_id_some _ _ _ Hfind) as Hid.
  set (g := fun row : Task =>
              if String.eqb (id row) i
              then mkTask (id row) (title merged) (description merged)
                          (completed merged) (created_at row) (clock (reads w))
                          (is_deleted merged) pending
                          (server_id merged) (last_synced_at merged)
              else row).
  assert (Hg : forall row, id (g row) = id row)
    by (intro row; unfold g; destruct (String.eqb (id row) i); reflexivity).
  assert (Hge : g e = stored)
    by (unfold g, stored; rewrite Hid, String.eqb_refl; reflexivity).
  assert (Hstored : find (fun t => String.eqb (id t) i) (map g (tasks w)) = Some stored)
    by (rewrite find_by_id_map, Hfind; [simpl; now rewrite Hge | exact Hg]).
  exists (mkWorld (map g (tasks w)) (sync_queue w) (S (S (S (reads w)))) (posts w)).
  split; [|split; [|reflexivity]].
  - unfold updateTask, db_getTask, bind, gets. rewrite Hfind, Hlive.
    unfold now, db_updateTask, db_addToSyncQueue, modify, bind, gets; simpl.
    replace (existsb _ (sync_queue w)) with true
      by (symmetry; apply queue_id_taken; exact Htaken).
    rewrite Hnoid. simpl. rewrite Hid. reflexivity.
  - unfold db_getTask, gets; simpl. now rewrite Hstored.
Qed.

End Partial.

Lemma updateTask_collision_keeps_record_update_witness :
  exists w',
    updateTask Scenario.frozen "A" Scenario.assigned_server_id
               (Scenario.world [Scenario.taskA]
                  [mkItem 1 (Some "A-7") "A" op_update None (Some 7) 0 None false])
      = Thrown "SQLITE_CONSTRAINT: UNIQUE constraint failed: sync_queue.queue_id" w' /\
    option_map server_id (find (fun t => String.eqb (id t) "A") (tasks w'))
      = Some (Some "srv-1").
Proof.
  destruct (updateTask_collision_keeps_record_update Scenario.frozen "A"
              Scenario.assigned_server_id
              (Scenario.world [Scenario.taskA]
                 [mkItem 1 (Some "A-7") "A" op_update None (Some 7) 0 None false])
              Scenario.taskA eq_refl eq_refl eq_refl
              ltac:(left; reflexivity))
    as (w' & Hrun & Hget & _).
  exists w'. split; [exact Hrun|].
  unfold db_getTask, gets in Hget. injection Hget as Hfind. rewrite Hfind. reflexivity.
Defined.


(** ** The public methods of [SyncService] *)

(** X1: [sync] and [SyncService.addToSyncQueue] throw a [TypeError] at their
    first statement, whatever the queue holds (an empty one included), the
    batch size and the remote: [sync] returns no counts and posts no request,
    [addToSyncQueue] appends nothing, and neither changes a row. *)
Theorem sync_and_addToSyncQueue_always_throw
        (SYNC_BATCH_SIZE : Z) (apiUrl : string) (clock : nat -> Z)
        (axios_post : nat -> string -> BatchSyncRequest -> PostOutcome)
        (t : string) (op : Operation) (d : PartialTask) (w : World) :
  sync SYNC_BATCH_SIZE apiUrl clock axios_post w = Thrown no_query w /\
  addToSyncQueue t op d w = Thrown no_query w.
Proof. split; [apply sync_rejects | apply addToSyncQueue_rejects]. Qed.

(** X9: the handler of [POST /sync].  When the connectivity probe fails it
    answers 503; when the probe succeeds [sync] throws and the [catch] of the
    route answers 500.  It never answers 200, posts no batch and changes no
    row, whatever the queue and the remote. *)
Theorem post_sync_answers
        (SYNC_BATCH_SIZE : Z) (apiUrl : string) (clock : nat -> Z)
        (axios_post : nat -> string -> BatchSyncRequest -> PostOutcome)
        (axios_get : string -> Z -> bool) (w : World) :
  post_sync SYNC_BATCH_SIZE apiUrl clock axios_post axios_get w =
  Returned (if axios_get (apiUrl ++ "/health")%string 5000
            then mkResponse 500 (ErrorBody "Failed to sync data")
            else mkResponse 503 (ErrorBody "No internet connection")) w.
Proof.
  unfold post_sync, try_catch, checkConnectivity, try_catch, bind, ret.
  destruct (axios_get _ _); reflexivity.
Qed.

(** ** Results that are matched to an item *)

Lemma getTask_returns (i : string) (w : World) :
  exists r, getTask i w = Returned r w.
Proof.
  unfold getTask, db_getTask, bind, gets, ret.
  destruct (find _ (tasks w)) as [t|]; [destruct (is_deleted t)|]; eauto.
Qed.

Lemma updateTask_ends (clock : nat -> Z) (i : string) (u : PartialTask) (w : World) :
  updateTask clock i u w <> Diverged.
Proof.
  unfold updateTask, db_getTask, bind, gets.
  destruct (find _ (tasks w)) as [e|]; [|discriminate].
  destruct (is_deleted e); [discriminate|].
  unfold now, db_updateTask, db_addToSyncQueue, modify, bind, gets; simpl.
  destruct (existsb _ (sync_queue w)); discriminate.
Qed.

Section Outcomes.

Variable clock : nat -> Z.

Lemma handle_outcome_throws item res s f w :
  exists e w', handle_outcome clock item res s f w = Thrown e w'.
Proof.
  unfold handle_outcome.
  destruct (String.eqb (r_status res) "success").
  { unfold bind. rewrite updateSyncStatus_rejects. eauto. }
  destruct (String.eqb (r_status res) "conflict").
  { unfold bind at 1.
    destruct (getTask_returns (task_id item) w) as (r & ->).
    destruct r as [l|]; [|unfold throw; eauto].
    destruct (r_serverData res) as [sv|]; [|unfold throw; eauto].
    unfold bind at 1.
    pose proof (updateTask_ends clock (task_id item)
                  (as_partial (resolveConflict l sv)) w) as Hend.
    destruct (updateTask clock (task_id item) _ w) as [r w1|e w1|];
      [|eauto|contradiction].
    unfold bind. rewrite updateSyncStatus_rejects. eauto. }
  unfold bind. rewrite handleSyncError_rejects. eauto.
Qed.

(** X10: a result that is matched to an item of the batch never completes:
    whatever its status, handling it throws (a success in [updateSyncStatus],
    a failure in [handleSyncError], a conflict there or earlier), and no
    counter is incremented.  So the loop over the results returns only when
    no result is matched to an item, and then with the counters and the world
    it started from. *)
Theorem matched_results_always_throw
        (items : list SyncQueueItem) (item : SyncQueueItem) (res : ItemResult)
        (s f : Z) (w : World) :
  (exists e w', handle_outcome clock item res s f w = Thrown e w') /\
  (forall results c w',
      results_loop clock items results s f w = Returned c w' ->
      c = (s, f) /\ w' = w /\ Forall (fun r => matched items r = None) results).
Proof.
  split; [apply handle_outcome_throws|].
  intros results. induction results as [|r rs IH]; intros c w' Hrun.
  - simpl in Hrun. injection Hrun as <- <-. auto.
  - cbn [results_loop] in Hrun. unfold bind, processResult in Hrun.
    fold (matched items r) in Hrun.
    destruct (matched items r) as [it|] eqn:Hm.
    + destruct (handle_outcome_throws it r s f w) as (e & w1 & He).
      rewrite He in Hrun. discriminate.
    + unfold ret in Hrun. cbn [fst snd] in Hrun.
      destruct (IH c w' Hrun) as (Hc & Hw & Hall). auto.
Qed.


End Outcomes.

Lemma matched_results_always_throw_witness :
  exists e w',
    handle_outcome Scenario.ticking Scenario.updateC
                   (mkItemResult "C" "failure" None None None) 0 0
                   (Scenario.world [Scenario.taskC] [Scenario.updateC])
    = Thrown e w'.
Proof.
  apply (matched_results_always_throw Scenario.ticking [Scenario.updateC]
           Scenario.updateC (mkItemResult "C" "failure" None None None) 0 0
           (Scenario.world [Scenario.taskC] [Scenario.updateC])).
Defined.


(** ** The records *)

Lemma same_records_of_tasks w w' : tasks w' = tasks w -> same_records w w'.
Proof.
  unfold same_records. intros ->. induction (tasks w); constructor; auto.
Qed.

Lemma Forall2_compose {A} (R1 R2 R3 : A -> A -> Prop) :
  (forall a b c, R1 a b -> R2 b c -> R3 a c) ->
  forall l1 l2 l3, Forall2 R1 l1 l2 -> Forall2 R2 l2 l3 -> Forall2 R3 l1 l3.
Proof.
  intros Hc l1; induction l1 as [|a l1 IH]; intros l2 l3 H12 H23;
    inversion H12; subst; inversion H23; subst; constructor; eauto.
Qed.

Lemma Forall2_map_self {A} (R : A -> A -> Prop) (g : A -> A) l :
  (forall a, R a (g a)) -> Forall2 R l (map g l).
Proof. intro H. induction l; simpl; constructor; auto. Qed.

Lemma same_records_refl w : same_records w w.
Proof. now apply same_records_of_tasks. Qed.

Lemma same_records_trans w1 w2 w3 :
  same_records w1 w2 -> same_records w2 w3 -> same_records w1 w3.
Proof.
  unfold same_records. apply Forall2_compose.
  intros a b c [H1 H2] [H3 H4]. split; congruence.
Qed.

Lemma same_records_rows g w :
  (forall row, id (g row) = id row /\ created_at (g row) = created_at row /\
               (sync_status (g row) = error_status -> sync_status row = error_status)) ->
  same_records w (set_tasks (map g) w).
Proof.
  intro H. unfold same_records. simpl. apply Forall2_map_self.
  intro row. destruct (H row) as (H1 & H2 & _). auto.
Qed.

Ltac record_frames :=
  try exact same_records_refl; try exact same_records_trans;
  try exact same_records_rows;
  intros; now apply same_records_of_tasks.

(** X7: neither [updateTask], nor [deleteTask], nor [processBatch] on any
    batch and any response of the remote (its conflict branch calls
    [updateTask]), nor [sync] adds a record to the table or removes one: the
    table holds the same rows in the same order, each with the [id] and the
    [created_at] it had. *)
Theorem records_are_never_added_or_removed
        (SYNC_BATCH_SIZE : Z) (apiUrl : string) (clock : nat -> Z)
        (axios_post : nat -> string -> BatchSyncRequest -> PostOutcome) (w : World) :
  match world_of (sync SYNC_BATCH_SIZE apiUrl clock axios_post w) with
  | Some w' => same_records w w'
  | None => False
  end /\
  (forall items, match world_of (processBatch apiUrl clock axios_post items w) with
                 | Some w' => same_records w w'
                 | None => False
                 end) /\
  (forall i u, match world_of (updateTask clock i u w) with
               | Some w' => same_records w w'
               | None => False
               end) /\
  (forall i, match world_of (deleteTask clock i w) with
             | Some w' => same_records w w'
             | None => False
             end).
Proof.
  split; [|split; [|split]]; intros; apply frames_run.
  - apply (sync_frames SYNC_BATCH_SIZE apiUrl clock axios_post same_records).
    record_frames.
  - apply (processBatch_frames apiUrl clock axios_post same_records); record_frames.
  - apply (updateTask_frames clock same_records); record_frames.
  - apply (deleteTask_frames clock same_records); record_frames.
Qed.

(** ** The status [error] *)

Lemma no_new_error_of_tasks w w' : tasks w' = tasks w -> no_new_error w w'.
Proof.
  unfold no_new_error. intros ->. induction (tasks w); constructor; auto.
Qed.

Lemma no_new_error_refl w : no_new_error w w.
Proof. now apply no_new_error_of_tasks. Qed.

Lemma no_new_error_trans w1 w2 w3 :
  no_new_error w1 w2 -> no_new_error w2 w3 -> no_new_error w1 w3.
Proof. unfold no_new_error. apply Forall2_compose. auto. Qed.

Lemma no_new_error_rows g w :
  (forall row, id (g row) = id row /\ created_at (g row) = created_at row /\
               (sync_status (g row) = error_status -> sync_status row = error_status)) ->
  no_new_error w (set_tasks (map g) w).
Proof.
  intro H. unfold no_new_error. simpl. apply Forall2_map_self.
  intro row. apply H.
Qed.

Ltac error_frames :=
  try exact no_new_error_refl; try exact no_new_error_trans;
  try exact no_new_error_rows;
  intros; now apply no_new_error_of_tasks.

(** X20: nothing writes the status [error]: after [updateTask], after
    [deleteTask], after [processBatch] on any batch and any response of the
    remote, failures included, and after [sync], a record has [sync_status]
    [error] only if it already had it before. *)
Theorem sync_status_error_is_never_written
        (SYNC_BATCH_SIZE : Z) (apiUrl : string) (clock : nat -> Z)
        (axios_post : nat -> string -> BatchSyncRequest -> PostOutcome) (w : World) :
  match world_of (sync SYNC_BATCH_SIZE apiUrl clock axios_post w) with
  | Some w' => no_new_error w w'
  | None => False
  end /\
  (forall items, match world_of (processBatch apiUrl clock axios_post items w) with
                 | Some w' => no_new_error w w'
                 | None => False
                 end) /\
  (forall i u, match world_of (updateTask clock i u w) with
               | Some w' => no_new_error w w'
               | None => False
               end) /\
  (forall i, match world_of (deleteTask clock i w) with
             | Some w' => no_new_error w w'
             | None => False
             end).
Proof.
  split; [|split; [|split]]; intros; apply frames_run.
  - apply (sync_frames SYNC_BATCH_SIZE apiUrl clock axios_post no_new_error).
    error_frames.
  - apply (processBatch_frames apiUrl clock axios_post no_new_error); error_frames.
  - apply (updateTask_frames clock no_new_error); error_frames.
  - apply (deleteTask_frames clock no_new_error); error_frames.
Qed.
